(** * Enterprise value formulas (enterprise_value.py)

    A shallow embedding of the seven valuation functions of
    [enterprise_value.py] over IEEE-754 binary64 numbers, the representation of
    a Python [float].  The arithmetic operators are the kernel's primitive
    floats; what Python adds on top of IEEE arithmetic (the exceptions of [/]
    and [**], the complex result of a negative base raised to a fractional
    power) is written out after CPython's float and complex objects
    (floatobject.c and complexobject.c of CPython 3, before the mixed
    real-complex arithmetic of 3.14).

    The arguments are floats, as the annotations of the source say; an [int]
    argument or literal ([1 + r], the default [t=1]) is converted to the float
    of the same value by the operator that meets it.  The bodies are also
    given as syntax, evaluated in a call frame over the module's globals, to
    state what a call can and cannot read.  Two annotations of the
    source are malformed ([g:flaot=None] and [nopat_1: ,]); the embedding
    follows the signatures they evidently stand for. *)

From Stdlib Require Import String.
From Stdlib Require Import Floats ZArith Bool List Lia.
Import ListNotations.

Local Open Scope float_scope.
Set Warnings "-inexact-float".

(** ** Exceptions, values and results *)

(** The exceptions the arithmetic of the module can raise. *)
Inductive exn : Set :=
  | ZeroDivisionError
  | OverflowError
  | ValueError.

(** A Python number as the module can produce it: a float, or the complex
    number that [**] returns for a negative base and a fractional exponent. *)
Inductive pyval : Set :=
  | PyFloat (x : float)
  | PyComplex (re im : float).

(** The outcome of evaluating an expression: a value or a raised exception. *)
Inductive result (A : Type) : Type :=
  | Ok (v : A)
  | Raise (e : exn).

Arguments Ok {A} v.
Arguments Raise {A} e.

Definition bind {A B : Type} (c : result A) (k : A -> result B) : result B :=
  match c with
  | Ok v => k v
  | Raise e => Raise e
  end.

Notation "x <- c ;; k" := (bind c (fun x => k))
  (at level 61, c at next level, right associativity).

Definition raises {A : Type} (c : result A) : bool :=
  match c with
  | Ok _ => false
  | Raise _ => true
  end.

(** The value of [errno] after a call into the C library. *)
Inductive errno : Set :=
  | ENONE
  | ERANGE
  | EDOM.

(** ** Float helpers of the C runtime *)

(** [floor], computed on the mantissa and exponent of the number. *)
Definition floor (x : float) : float :=
  match Prim2SF x with
  | S754_finite s m e =>
      match e with
      | Zneg k =>
          let n := if s then Z.opp (Zpos m) else Zpos m in
          SF2Prim (binary_normalize prec emax (Z.shiftr n (Zpos k)) 0 s)
      | _ => x
      end
  | _ => x
  end.

(** CPython's [DOUBLE_IS_ODD_INTEGER(x)], that is [fmod(fabs(x), 2.0) == 1.0]:
    the number is finite and its magnitude is an odd integer. *)
Definition double_is_odd_integer (x : float) : bool :=
  match Prim2SF x with
  | S754_finite _ m e =>
      match e with
      | Z0 => Z.odd (Zpos m)
      | Zpos _ => false
      | Zneg k =>
          Z.eqb (Z.land (Zpos m) (Z.ones (Zpos k))) 0
          && Z.odd (Z.shiftr (Zpos m) (Zpos k))
      end
  | _ => false
  end.

(** [copysign(0.0, x)]. *)
Definition copysign_zero (x : float) : float :=
  if get_sign x then neg_zero else zero.

(** CPython's [_Py_ADJUST_ERANGE1]: an infinite result is a range error even
    when the library did not report one, and an underflow to zero is none. *)
Definition adjust_erange1 (x : float) (e : errno) : errno :=
  match e with
  | ENONE => if is_infinity x then ERANGE else ENONE
  | ERANGE => if x =? 0 then ENONE else ERANGE
  | EDOM => EDOM
  end.

(** ** Complex arithmetic (CPython's complexobject.c) *)

Definition to_complex (v : pyval) : float * float :=
  match v with
  | PyFloat x => (x, 0)
  | PyComplex re im => (re, im)
  end.

(** [_Py_c_prod]. *)
Definition c_prod (a b : float * float) : float * float :=
  let '(ar, ai) := a in
  let '(br, bi) := b in
  (ar * br - ai * bi, ar * bi + ai * br).

(** [_Py_c_quot]: Smith's algorithm; a zero divisor sets [errno] to [EDOM]. *)
Definition c_quot (a b : float * float) : (float * float) * errno :=
  let '(ar, ai) := a in
  let '(br, bi) := b in
  let abs_breal := if br <? 0 then - br else br in
  let abs_bimag := if bi <? 0 then - bi else bi in
  if abs_bimag <=? abs_breal then
    if abs_breal =? 0 then ((0, 0), EDOM)
    else
      let ratio := bi / br in
      let denom := br + bi * ratio in
      (((ar + ai * ratio) / denom, (ai - ar * ratio) / denom), ENONE)
  else if abs_breal <=? abs_bimag then
    let ratio := br / bi in
    let denom := br * ratio + bi in
    (((ar * ratio + ai) / denom, (ai * ratio - ar) / denom), ENONE)
  else ((nan, nan), ENONE).

(** [complex_div]. *)
Definition complex_div (a b : float * float) : result pyval :=
  match c_quot a b with
  | ((re, im), EDOM) => Raise ZeroDivisionError
  | ((re, im), _) => Ok (PyComplex re im)
  end.

(** ** The operators of the module's expressions *)

(** [x / y] on floats ([float_div]): a zero divisor, of either sign, raises. *)
Definition float_div (x y : float) : result float :=
  if y =? 0 then Raise ZeroDivisionError else Ok (x / y).

(** [v / w] where the divisor may have become complex. *)
Definition py_truediv (v w : pyval) : result pyval :=
  match v, w with
  | PyFloat x, PyFloat y => q <- float_div x y ;; Ok (PyFloat q)
  | _, _ => complex_div (to_complex v) (to_complex w)
  end.

(** [v * w]: float multiplication never raises; a complex operand makes the
    product complex. *)
Definition py_mul (v w : pyval) : pyval :=
  match v, w with
  | PyFloat x, PyFloat y => PyFloat (x * y)
  | _, _ => let '(re, im) := c_prod (to_complex v) (to_complex w) in PyComplex re im
  end.

Section Runtime.

(** The C library's [pow], with the [errno] it leaves.  CPython calls it
    only for a finite positive base other than 1 and a finite nonzero
    exponent. *)
Variable libm_pow : float -> float -> float * errno.

(** Python's complex power of the float base [v] and the float exponent
    [w], reached for a negative base and a fractional exponent. *)
Variable complex_pow : float -> float -> result pyval.

(** [v ** w] on floats: CPython's [float_pow]. *)
Definition float_pow (v w : float) : result pyval :=
  if w =? 0 then Ok (PyFloat 1)
  else if is_nan v then Ok (PyFloat v)
  else if is_nan w then Ok (PyFloat (if v =? 1 then 1 else w))
  else if is_infinity w then
    let iv := abs v in
    if iv =? 1 then Ok (PyFloat 1)
    else if Bool.eqb (0 <? w) (1 <? iv) then Ok (PyFloat (abs w))
    else Ok (PyFloat 0)
  else if is_infinity v then
    let iw_is_odd := double_is_odd_integer w in
    if 0 <? w then Ok (PyFloat (if iw_is_odd then v else abs v))
    else Ok (PyFloat (if iw_is_odd then copysign_zero v else 0))
  else if v =? 0 then
    let iw_is_odd := double_is_odd_integer w in
    if w <? 0 then Raise ZeroDivisionError
    else Ok (PyFloat (if iw_is_odd then v else 0))
  else if (v <? 0) && negb (w =? floor w) then complex_pow v w
  else
    let negate_result := (v <? 0) && double_is_odd_integer w in
    let iv := if v <? 0 then - v else v in
    if iv =? 1 then Ok (PyFloat (if negate_result then -1 else 1))
    else
      let '(ix, e) := libm_pow iv w in
      let e := adjust_erange1 ix e in
      let ix := if negate_result then - ix else ix in
      match e with
      | ENONE => Ok (PyFloat ix)
      | ERANGE => Raise OverflowError
      | EDOM => Raise ValueError
      end.

(** ** The seven functions *)

(** [value(fcff, r, t)]: [fcff / (1 + r) ** t]. *)
Definition value (fcff r t : float) : result pyval :=
  p <- float_pow (1 + r) t ;;
  py_truediv (PyFloat fcff) p.

(** [future_free_cash_flow(nopat, ic, g=None)]. *)
Definition future_free_cash_flow (nopat ic : float) (g : option float) : float :=
  let ic := match g with
            | Some g => ic * g
            | None => ic
            end in
  nopat - ic.

(** [return_on_invested_capital(nopat, ic)]. *)
Definition return_on_invested_capital (nopat ic : float) : result float :=
  float_div nopat ic.

(** [value_2(nopat, g, roic, r)]. *)
Definition value_2 (nopat g roic r : float) : result float :=
  q <- float_div g roic ;;
  float_div (nopat * (1 - q)) (r - g).

(** [economic_profit(nopat_1, ic_0, r, f, g, t=1)]. *)
Definition economic_profit (nopat_1 ic_0 r f g t : float) : result pyval :=
  q <- float_div nopat_1 ic_0 ;;
  let term1 := q - r in
  term2 <- float_pow (1 - f) (t - 1) ;;
  term3 <- float_pow (1 + g) (t - 1) ;;
  Ok (py_mul (py_mul (py_mul (PyFloat term1) term2) term3) (PyFloat ic_0)).

(** [EV_fade(nopat_1, ic_0, r, f, g)]. *)
Definition EV_fade (nopat_1 ic_0 r f g : float) : result float :=
  q <- float_div nopat_1 ic_0 ;;
  let ep_1 := (q - r) * ic_0 in
  let term2 := r - (1 + g) * (1 - f) + 1 in
  d <- float_div ep_1 term2 ;;
  Ok (ic_0 + d).

(** [EV_fade2(nopat_1, roic_1, r, f, g)]. *)
Definition EV_fade2 (nopat_1 roic_1 r f g : float) : result float :=
  q <- float_div (g - f) roic_1 ;;
  let enterprise_value := nopat_1 * (1 - q) in
  let discount := r - g + f in
  float_div enterprise_value discount.

End Runtime.

(** ** Calls *)

(** A call of one of the seven functions with its arguments. *)
Inductive call : Set :=
  | Call_value (fcff r t : float)
  | Call_future_free_cash_flow (nopat ic : float) (g : option float)
  | Call_return_on_invested_capital (nopat ic : float)
  | Call_value_2 (nopat g roic r : float)
  | Call_economic_profit (nopat_1 ic_0 r f g t : float)
  | Call_EV_fade (nopat_1 ic_0 r f g : float)
  | Call_EV_fade2 (nopat_1 roic_1 r f g : float).

Definition float_result (c : result float) : result pyval :=
  x <- c ;; Ok (PyFloat x).

Section Session.

Variable libm_pow : float -> float -> float * errno.
Variable complex_pow : float -> float -> result pyval.

(** What a call returns or raises. *)
Definition exec (c : call) : result pyval :=
  match c with
  | Call_value fcff r t => value libm_pow complex_pow fcff r t
  | Call_future_free_cash_flow nopat ic g =>
      Ok (PyFloat (future_free_cash_flow nopat ic g))
  | Call_return_on_invested_capital nopat ic =>
      float_result (return_on_invested_capital nopat ic)
  | Call_value_2 nopat g roic r => float_result (value_2 nopat g roic r)
  | Call_economic_profit nopat_1 ic_0 r f g t =>
      economic_profit libm_pow complex_pow nopat_1 ic_0 r f g t
  | Call_EV_fade nopat_1 ic_0 r f g => float_result (EV_fade nopat_1 ic_0 r f g)
  | Call_EV_fade2 nopat_1 roic_1 r f g =>
      float_result (EV_fade2 nopat_1 roic_1 r f g)
  end.

End Session.

(** ** The function bodies as Python evaluates them

    The state a call could consult besides its arguments is the module's
    global namespace (which stands for the builtins as well: a name that is
    not local is looked up there).  The bodies are written as syntax and
    evaluated in a call frame over that namespace; a name is local to a
    function when it is a parameter or is assigned in the body, as the
    compiler decides it.  Arguments are positional; a keyword argument binds
    the same parameter. *)

(** An object a name can be bound to: [None] or a number. *)
Inductive pyobj : Set :=
  | ONone
  | ONum (v : pyval).

(** What evaluation can raise: the arithmetic exceptions, a name that is
    bound nowhere, an operand of the wrong type (or a call with the wrong
    number of arguments). *)
Inductive pyerror : Set :=
  | Arithmetic (e : exn)
  | NameError (id : string)
  | TypeError.

Inductive outcome (A : Type) : Type :=
  | Done (v : A)
  | Failed (e : pyerror).

Arguments Done {A} v.
Arguments Failed {A} e.

Definition of_result (c : result pyval) : outcome pyobj :=
  match c with
  | Ok v => Done (ONum v)
  | Raise e => Failed (Arithmetic e)
  end.

(** A namespace: the dictionary of a module or of a call frame. *)
Definition namespace : Set := list (string * pyobj).

Fixpoint lookup (id : string) (ns : namespace) : option pyobj :=
  match ns with
  | [] => None
  | (k, v) :: ns' => if String.eqb id k then Some v else lookup id ns'
  end.

Inductive binop : Set := Add | Sub | Mul | Div | Pow.

Inductive expr : Set :=
  | Const (x : float)
  | Name (id : string)
  | BinOp (op : binop) (l r : expr).

Inductive stmt : Set :=
  | Assign (target : string) (e : expr)
  | IfIsNotNone (e : expr) (body : stmt)
  | Return (e : expr)
  | Seq (s1 s2 : stmt).

(** A [def]: the parameters with their defaults, and the body. *)
Record funcdef : Set := {
  fn_params : list (string * option pyobj);
  fn_body : stmt
}.

(** The names a body assigns: with the parameters, the local names of the
    function; every other name is looked up in the module. *)
Fixpoint assigned (s : stmt) : list string :=
  match s with
  | Assign target _ => [target]
  | IfIsNotNone _ body => assigned body
  | Return _ => []
  | Seq s1 s2 => assigned s1 ++ assigned s2
  end.

Definition local_names (f : funcdef) : list string :=
  map fst (fn_params f) ++ assigned (fn_body f).

Definition is_local (locals : list string) (id : string) : bool :=
  existsb (String.eqb id) locals.

(** [v + w] and [v - w]: float arithmetic, complex when an operand is. *)
Definition py_add (v w : pyval) : pyval :=
  match v, w with
  | PyFloat x, PyFloat y => PyFloat (x + y)
  | _, _ =>
      let '(ar, ai) := to_complex v in
      let '(br, bi) := to_complex w in
      PyComplex (ar + br) (ai + bi)
  end.

Definition py_sub (v w : pyval) : pyval :=
  match v, w with
  | PyFloat x, PyFloat y => PyFloat (x - y)
  | _, _ =>
      let '(ar, ai) := to_complex v in
      let '(br, bi) := to_complex w in
      PyComplex (ar - br) (ai - bi)
  end.

Section Interpreter.

Variable libm_pow : float -> float -> float * errno.
Variable complex_pow : float -> float -> result pyval.

(** Python's power when an operand is already complex; no function of the
    module reaches it with float arguments. *)
Variable complex_operand_pow : pyval -> pyval -> result pyval.

Definition py_pow (v w : pyval) : result pyval :=
  match v, w with
  | PyFloat x, PyFloat y => float_pow libm_pow complex_pow x y
  | _, _ => complex_operand_pow v w
  end.

(** A binary operator on two objects; [None] supports none of them. *)
Definition apply_binop (op : binop) (a b : pyobj) : outcome pyobj :=
  match a, b with
  | ONum v, ONum w =>
      match op with
      | Add => Done (ONum (py_add v w))
      | Sub => Done (ONum (py_sub v w))
      | Mul => Done (ONum (py_mul v w))
      | Div => of_result (py_truediv v w)
      | Pow => of_result (py_pow v w)
      end
  | _, _ => Failed TypeError
  end.

(** Evaluation of an expression in a frame: a local name is read from the
    frame (unbound there, it raises UnboundLocalError, a NameError), any
    other name from the module's globals.  Operands are evaluated left to
    right. *)
Fixpoint eval_expr (globals frame : namespace) (locals : list string)
    (e : expr) : outcome pyobj :=
  match e with
  | Const x => Done (ONum (PyFloat x))
  | Name id =>
      match lookup id (if is_local locals id then frame else globals) with
      | Some v => Done v
      | None => Failed (NameError id)
      end
  | BinOp op l r =>
      match eval_expr globals frame locals l with
      | Done a =>
          match eval_expr globals frame locals r with
          | Done b => apply_binop op a b
          | Failed e => Failed e
          end
      | Failed e => Failed e
      end
  end.

(** How a statement ends: it falls through with the frame it leaves, it
    returns, or it raises. *)
Inductive flow : Set :=
  | Next (frame : namespace)
  | Returned (v : pyobj)
  | Raised (e : pyerror).

Fixpoint exec_stmt (globals frame : namespace) (locals : list string)
    (s : stmt) : flow :=
  match s with
  | Assign target e =>
      match eval_expr globals frame locals e with
      | Done v => Next ((target, v) :: frame)
      | Failed err => Raised err
      end
  | IfIsNotNone e body =>
      match eval_expr globals frame locals e with
      | Done ONone => Next frame
      | Done (ONum _) => exec_stmt globals frame locals body
      | Failed err => Raised err
      end
  | Return e =>
      match eval_expr globals frame locals e with
      | Done v => Returned v
      | Failed err => Raised err
      end
  | Seq s1 s2 =>
      match exec_stmt globals frame locals s1 with
      | Next frame' => exec_stmt globals frame' locals s2
      | Returned v => Returned v
      | Raised err => Raised err
      end
  end.

(** Binding positional arguments to the parameters; a missing argument takes
    the parameter's default. *)
Fixpoint bind_args (params : list (string * option pyobj)) (args : list pyobj)
    : option namespace :=
  match params, args with
  | [], [] => Some []
  | [], _ :: _ => None
  | (id, default) :: params', [] =>
      match default, bind_args params' [] with
      | Some v, Some frame => Some ((id, v) :: frame)
      | _, _ => None
      end
  | (id, _) :: params', a :: args' =>
      match bind_args params' args' with
      | Some frame => Some ((id, a) :: frame)
      | None => None
      end
  end.

(** A call of [f] in a module whose globals are [globals]. *)
Definition call_function (globals : namespace) (f : funcdef) (args : list pyobj)
    : outcome pyobj :=
  match bind_args (fn_params f) args with
  | None => Failed TypeError
  | Some frame =>
      match exec_stmt globals frame (local_names f) (fn_body f) with
      | Next _ => Done ONone
      | Returned v => Done v
      | Raised err => Failed err
      end
  end.

End Interpreter.

(** The seven [def]s of the module. *)

Definition def_value : funcdef := {|
  fn_params := [("fcff", None); ("r", None); ("t", None)]%string;
  fn_body :=
    Return (BinOp Div (Name "fcff")
              (BinOp Pow (BinOp Add (Const 1) (Name "r")) (Name "t")))
|}.

Definition def_future_free_cash_flow : funcdef := {|
  fn_params := [("nopat", None); ("ic", None); ("g", Some ONone)]%string;
  fn_body :=
    Seq (IfIsNotNone (Name "g")
           (Assign "ic" (BinOp Mul (Name "ic") (Name "g"))))
        (Return (BinOp Sub (Name "nopat") (Name "ic")))
|}.

Definition def_return_on_invested_capital : funcdef := {|
  fn_params := [("nopat", None); ("ic", None)]%string;
  fn_body := Return (BinOp Div (Name "nopat") (Name "ic"))
|}.

Definition def_value_2 : funcdef := {|
  fn_params := [("nopat", None); ("g", None); ("roic", None); ("r", None)]%string;
  fn_body :=
    Return (BinOp Div
              (BinOp Mul (Name "nopat")
                 (BinOp Sub (Const 1) (BinOp Div (Name "g") (Name "roic"))))
              (BinOp Sub (Name "r") (Name "g")))
|}.

Definition def_economic_profit : funcdef := {|
  fn_params := [("nopat_1", None); ("ic_0", None); ("r", None); ("f", None);
                ("g", None); ("t", Some (ONum (PyFloat 1)))]%string;
  fn_body :=
    Seq (Assign "term1"
           (BinOp Sub (BinOp Div (Name "nopat_1") (Name "ic_0")) (Name "r")))
   (Seq (Assign "term2"
           (BinOp Pow (BinOp Sub (Const 1) (Name "f"))
              (BinOp Sub (Name "t") (Const 1))))
   (Seq (Assign "term3"
           (BinOp Pow (BinOp Add (Const 1) (Name "g"))
              (BinOp Sub (Name "t") (Const 1))))
        (Return (BinOp Mul
                   (BinOp Mul (BinOp Mul (Name "term1") (Name "term2"))
                      (Name "term3"))
                   (Name "ic_0")))))
|}.

Definition def_EV_fade : funcdef := {|
  fn_params := [("nopat_1", None); ("ic_0", None); ("r", None); ("f", None);
                ("g", None)]%string;
  fn_body :=
    Seq (Assign "ep_1"
           (BinOp Mul
              (BinOp Sub (BinOp Div (Name "nopat_1") (Name "ic_0")) (Name "r"))
              (Name "ic_0")))
   (Seq (Assign "term2"
           (BinOp Add
              (BinOp Sub (Name "r")
                 (BinOp Mul (BinOp Add (Const 1) (Name "g"))
                    (BinOp Sub (Const 1) (Name "f"))))
              (Const 1)))
        (Return (BinOp Add (Name "ic_0")
                   (BinOp Div (Name "ep_1") (Name "term2")))))
|}.

Definition def_EV_fade2 : funcdef := {|
  fn_params := [("nopat_1", None); ("roic_1", None); ("r", None); ("f", None);
                ("g", None)]%string;
  fn_body :=
    Seq (Assign "enterprise_value"
           (BinOp Mul (Name "nopat_1")
              (BinOp Sub (Const 1)
                 (BinOp Div (BinOp Sub (Name "g") (Name "f")) (Name "roic_1")))))
   (Seq (Assign "discount"
           (BinOp Add (BinOp Sub (Name "r") (Name "g")) (Name "f")))
        (Return (BinOp Div (Name "enterprise_value") (Name "discount"))))
|}.

Definition module_functions : list funcdef :=
  [def_value; def_future_free_cash_flow; def_return_on_invested_capital;
   def_value_2; def_economic_profit; def_EV_fade; def_EV_fade2].

(** The [def] a call names and the arguments it passes. *)
Definition def_of (c : call) : funcdef :=
  match c with
  | Call_value _ _ _ => def_value
  | Call_future_free_cash_flow _ _ _ => def_future_free_cash_flow
  | Call_return_on_invested_capital _ _ => def_return_on_invested_capital
  | Call_value_2 _ _ _ _ => def_value_2
  | Call_economic_profit _ _ _ _ _ _ => def_economic_profit
  | Call_EV_fade _ _ _ _ _ => def_EV_fade
  | Call_EV_fade2 _ _ _ _ _ => def_EV_fade2
  end.

Definition num (x : float) : pyobj := ONum (PyFloat x).

Definition args_of (c : call) : list pyobj :=
  match c with
  | Call_value fcff r t => [num fcff; num r; num t]
  | Call_future_free_cash_flow nopat ic (Some g) => [num nopat; num ic; num g]
  | Call_future_free_cash_flow nopat ic None => [num nopat; num ic]
  | Call_return_on_invested_capital nopat ic => [num nopat; num ic]
  | Call_value_2 nopat g roic r => [num nopat; num g; num roic; num r]
  | Call_economic_profit nopat_1 ic_0 r f g t =>
      [num nopat_1; num ic_0; num r; num f; num g; num t]
  | Call_EV_fade nopat_1 ic_0 r f g =>
      [num nopat_1; num ic_0; num r; num f; num g]
  | Call_EV_fade2 nopat_1 roic_1 r f g =>
      [num nopat_1; num roic_1; num r; num f; num g]
  end.

(** Every name the expression reads is a local name. *)
Fixpoint reads_locals (locals : list string) (e : expr) : bool :=
  match e with
  | Const _ => true
  | Name id => is_local locals id
  | BinOp _ l r => reads_locals locals l && reads_locals locals r
  end.

Fixpoint body_reads_locals (locals : list string) (s : stmt) : bool :=
  match s with
  | Assign _ e => reads_locals locals e
  | IfIsNotNone e body => reads_locals locals e && body_reads_locals locals body
  | Return e => reads_locals locals e
  | Seq s1 s2 => body_reads_locals locals s1 && body_reads_locals locals s2
  end.

(** A [def] outside the module, for comparison: it reads the name [rate],
    which is no parameter and is assigned nowhere in its body. *)
Definition def_reads_global : funcdef := {|
  fn_params := [("fcff", None)]%string;
  fn_body := Return (BinOp Div (Name "fcff") (Name "rate"))
|}.

(** ** A runtime for the examples *)

(** The two library results the examples need, as CPython computes them on
    x86-64 Linux: [pow(1.1, 1.0)] and [(-1.0) ** 0.5].  Any other request is
    answered with a domain error. *)
Definition sample_libm_pow (x y : float) : float * errno :=
  if (x =? 1.1) && (y =? 1) then (1.1, ENONE) else (nan, EDOM).

Definition sample_complex_pow (v w : float) : result pyval :=
  if (v =? -1) && (w =? 0.5) then Ok (PyComplex 6.123233995736766e-17 1)
  else Raise ValueError.

Definition sample_complex_operand_pow (v w : pyval) : result pyval :=
  Raise ValueError.

(** ** Predicates on binary64 numbers *)

(** The number is a zero of either sign. *)
Definition SFis_zero (x : spec_float) : bool :=
  match x with
  | S754_zero _ => true
  | _ => false
  end.

(** Two results name the same number: the same float, or floats that Python's
    [==] holds equal (the two zeros). *)
Definition same_number (x y : float) : Prop :=
  x = y \/ (x =? y) = true.

(** The outcome is a complex number. *)
Definition is_complex (c : result pyval) : bool :=
  match c with
  | Ok (PyComplex _ _) => true
  | _ => false
  end.

(** * Facts of binary64 arithmetic

    Derived from the specification of the primitive floats ([SpecFloat] and
    [FloatAxioms]): multiplying and dividing by 1.0 are exact, and a
    difference is a zero exactly when its operands are equal. *)

Section SpecFloatFacts.

Local Open Scope Z_scope.

Lemma iter_pos_nat {A : Type} (f : A -> A) (p : positive) (x : A) :
  SpecFloat.iter_pos f p x = Nat.iter (Pos.to_nat p) f x.
Proof.
  revert x. induction p as [p IH | p IH |]; intro x; cbn [SpecFloat.iter_pos].
  - rewrite !IH, Pos2Nat.inj_xI.
    replace (S (2 * Pos.to_nat p)) with (Pos.to_nat p + S (Pos.to_nat p))%nat by lia.
    rewrite Nat.iter_add. f_equal.
    now rewrite Nat.iter_succ_r.
  - rewrite !IH, Pos2Nat.inj_xO.
    replace (2 * Pos.to_nat p)%nat with (Pos.to_nat p + Pos.to_nat p)%nat by lia.
    now rewrite Nat.iter_add.
  - reflexivity.
Qed.

Lemma digits2_pos_shiftl (m : positive) (k : nat) :
  Zpos (digits2_pos (Nat.iter k xO m)) = Zpos (digits2_pos m) + Z.of_nat k.
Proof.
  induction k as [| k IH].
  - simpl. lia.
  - rewrite Nat2Z.inj_succ. simpl Nat.iter. simpl digits2_pos.
    rewrite Pos2Z.inj_succ, IH. lia.
Qed.

Lemma shr_1_shiftl (m : positive) (k : nat) :
  Nat.iter k shr_1 (Build_shr_record (Zpos (Nat.iter k xO m)) false false)
  = Build_shr_record (Zpos m) false false.
Proof.
  induction k as [| k IH].
  - reflexivity.
  - rewrite Nat.iter_succ_r. simpl. exact IH.
Qed.

Lemma bounded_canonical (m : positive) (e : Z) :
  bounded prec emax m e = true ->
  fexp prec emax (Zpos (digits2_pos m) + e) = e /\ e <= emax - prec.
Proof.
  unfold bounded, canonical_mantissa. intro H.
  apply andb_prop in H. destruct H as [H1 H2].
  split; [now apply Z.eqb_eq | now apply Z.leb_le].
Qed.

Lemma shr_shiftl (m : positive) (e : Z) (k : nat) :
  shr (Build_shr_record (Zpos (Nat.iter k xO m)) false false)
      (e - Z.of_nat k) (Z.of_nat k)
  = (Build_shr_record (Zpos m) false false, e).
Proof.
  destruct k as [| k].
  - simpl. f_equal. lia.
  - unfold shr. rewrite Nat2Z.inj_succ, <- Zpos_P_of_succ_nat.
    rewrite iter_pos_nat, SuccNat2Pos.id_succ, shr_1_shiftl.
    f_equal. lia.
Qed.

(** Rounding a mantissa that was only shifted left gives the number back. *)
Lemma binary_round_aux_shiftl (s : bool) (m : positive) (e : Z) (k : nat) :
  bounded prec emax m e = true ->
  binary_round_aux prec emax s (Zpos (Nat.iter k xO m)) (e - Z.of_nat k) loc_Exact
  = S754_finite s m e.
Proof.
  intro Hb. destruct (bounded_canonical m e Hb) as [Hc He].
  unfold binary_round_aux, shr_fexp. cbn [Zdigits2 shr_record_of_loc].
  rewrite digits2_pos_shiftl.
  replace (Zpos (digits2_pos m) + Z.of_nat k + (e - Z.of_nat k))
    with (Zpos (digits2_pos m) + e) by lia.
  rewrite Hc.
  replace (e - (e - Z.of_nat k)) with (Z.of_nat k) by lia.
  rewrite shr_shiftl.
  cbn [shr_m loc_of_shr_record round_nearest_even Zdigits2 shr_record_of_loc].
  rewrite Hc, Z.sub_diag. cbn [shr shr_m].
  apply Z.leb_le in He. now rewrite He.
Qed.

Lemma div_eucl_div_mod (a b : Z) : Z.div_eucl a b = (a / b, a mod b).
Proof. unfold Z.div, Z.modulo. now destruct (Z.div_eucl a b). Qed.

(** The quotient of a binary64 mantissa by the mantissa of 1.0 is exact. *)
Lemma div_core_one (m : positive) (e : Z) :
  bounded prec emax m e = true ->
  exists k : nat,
    SFdiv_core_binary prec emax (Zpos m) e 4503599627370496 (-52)
    = (Zpos (Nat.iter k xO m), e - Z.of_nat k, loc_Exact).
Proof.
  intro Hb. destruct (bounded_canonical m e Hb) as [Hc He].
  unfold SFdiv_core_binary.
  change (Zdigits2 4503599627370496) with 53.
  cbn [Zdigits2].
  set (d := Zpos (digits2_pos m)) in *.
  set (e' := Z.min (fexp prec emax (d + e - (53 + -52))) (e - -52)).
  assert (He' : e' = e - 1 \/ e' = e).
  { subst e'. revert Hc. unfold fexp, SpecFloat.emin, prec, emax. subst d. lia. }
  destruct He' as [-> | ->].
  - exists 1%nat.
    replace (e - -52 - (e - 1)) with 53 by lia.
    rewrite div_eucl_div_mod, Z.shiftl_mul_pow2 by lia.
    replace (Zpos m * 2 ^ 53) with (Zpos m~0 * 4503599627370496) by lia.
    rewrite Z.div_mul, Z.mod_mul by lia. reflexivity.
  - exists 0%nat.
    replace (e - -52 - e) with 52 by lia.
    rewrite div_eucl_div_mod, Z.shiftl_mul_pow2 by lia.
    change (2 ^ 52) with 4503599627370496.
    rewrite Z.div_mul, Z.mod_mul by lia.
    rewrite Z.sub_0_r. reflexivity.
Qed.

Lemma shr_1_div2 (r : shr_record) :
  0 <= shr_m r -> shr_m (shr_1 r) = shr_m r / 2.
Proof.
  destruct r as [m r s]. cbn [shr_m]. intro Hm.
  destruct m as [| p | p]; [reflexivity | | lia].
  destruct p as [p | p |]; cbn [shr_1 shr_m].
  - apply Z.div_unique with 1; lia.
  - apply Z.div_unique with 0; lia.
  - reflexivity.
Qed.

Lemma shr_iter_div (k : nat) (r : shr_record) :
  0 <= shr_m r -> shr_m (Nat.iter k shr_1 r) = shr_m r / 2 ^ Z.of_nat k.
Proof.
  intro Hm. induction k as [| k IH].
  - simpl. now rewrite Z.div_1_r.
  - cbn [Nat.iter nat_rect].
    change (nat_rect (fun _ => shr_record) r (fun _ => shr_1) k) with (Nat.iter k shr_1 r).
    rewrite shr_1_div2; rewrite IH.
    + rewrite Nat2Z.inj_succ, Z.pow_succ_r, Z.div_div by lia.
      f_equal. lia.
    + apply Z.div_pos; lia.
Qed.

Lemma digits2_pos_lower (m : positive) :
  2 ^ (Zpos (digits2_pos m) - 1) <= Zpos m.
Proof.
  induction m as [m IH | m IH |]; cbn [digits2_pos].
  - rewrite Pos2Z.inj_succ.
    replace (Z.succ (Zpos (digits2_pos m)) - 1) with (Z.succ (Zpos (digits2_pos m) - 1)) by lia.
    rewrite Z.pow_succ_r by lia. lia.
  - rewrite Pos2Z.inj_succ.
    replace (Z.succ (Zpos (digits2_pos m)) - 1) with (Z.succ (Zpos (digits2_pos m) - 1)) by lia.
    rewrite Z.pow_succ_r by lia. lia.
  - simpl. lia.
Qed.

Lemma shr_record_of_loc_m (m : Z) (l : location) : shr_m (shr_record_of_loc m l) = m.
Proof. destruct l as [| []]; reflexivity. Qed.

(** Aligning a positive mantissa to the format never shifts all of it out. *)
Lemma shr_fexp_pos (m : positive) (e : Z) (l : location) :
  SpecFloat.emin prec emax <= e ->
  0 < shr_m (fst (shr_fexp prec emax (Zpos m) e l))
  /\ SpecFloat.emin prec emax <= snd (shr_fexp prec emax (Zpos m) e l).
Proof.
  intro He. unfold shr_fexp. cbn [Zdigits2].
  set (d := Zpos (digits2_pos m)).
  set (n := fexp prec emax (d + e) - e).
  unfold shr. destruct n as [| p | p] eqn:Hn; cbn [fst snd];
    try (rewrite shr_record_of_loc_m; split; lia).
  assert (Hp : Zpos p = d - prec).
  { revert Hn He. subst n. unfold fexp, SpecFloat.emin, prec, emax. lia. }
  split; [| lia].
  rewrite iter_pos_nat, shr_iter_div by (rewrite shr_record_of_loc_m; lia).
  rewrite shr_record_of_loc_m, positive_nat_Z.
  apply Z.div_str_pos. split; [apply Z.pow_pos_nonneg; lia |].
  apply Z.le_trans with (2 ^ (d - 1)); [| apply digits2_pos_lower].
  apply Z.pow_le_mono_r; [lia |]. rewrite Hp. unfold prec. lia.
Qed.

Lemma round_nearest_even_pos (m : Z) (l : location) :
  0 < m -> 0 < round_nearest_even m l.
Proof.
  intro Hm. destruct l as [| []]; cbn [round_nearest_even]; try lia.
  destruct (Z.even m); lia.
Qed.

Lemma binary_round_aux_not_zero (s : bool) (m : positive) (e : Z) (l : location) :
  SpecFloat.emin prec emax <= e ->
  SFis_zero (binary_round_aux prec emax s (Zpos m) e l) = false.
Proof.
  intro He. unfold binary_round_aux.
  destruct (shr_fexp_pos m e l He) as [H1 H2].
  destruct (shr_fexp prec emax (Zpos m) e l) as [mrs' e']. cbn [fst snd] in H1, H2.
  pose proof (round_nearest_even_pos (shr_m mrs') (loc_of_shr_record mrs') H1) as H3.
  destruct (round_nearest_even (shr_m mrs') (loc_of_shr_record mrs')) as [| m2 | m2]; try lia.
  destruct (shr_fexp_pos m2 e' loc_Exact H2) as [H4 H5].
  destruct (shr_fexp prec emax (Zpos m2) e' loc_Exact) as [mrs'' e'']. cbn [fst snd] in H4, H5.
  destruct (shr_m mrs'') as [| m3 | m3]; try lia.
  now destruct (e'' <=? emax - prec).
Qed.

Lemma binary_round_not_zero (s : bool) (m : positive) (e : Z) :
  SpecFloat.emin prec emax <= e ->
  SFis_zero (binary_round prec emax s m e) = false.
Proof.
  intro He. unfold binary_round, shl_align.
  set (e' := fexp prec emax (Zpos (digits2_pos m) + e)).
  assert (He' : SpecFloat.emin prec emax <= e') by (subst e'; unfold fexp; lia).
  destruct (e' - e); now apply binary_round_aux_not_zero.
Qed.

Lemma binary_normalize_not_zero (m e : Z) (szero : bool) :
  m <> 0 -> SpecFloat.emin prec emax <= e ->
  SFis_zero (binary_normalize prec emax m e szero) = false.
Proof.
  intros Hm He. destruct m as [| p | p]; [easy | |]; now apply binary_round_not_zero.
Qed.

Lemma pos_iter_nat {A : Type} (f : A -> A) (x : A) (p : positive) :
  Pos.iter f x p = Nat.iter (Pos.to_nat p) f x.
Proof. apply Pos2Nat.inj_iter. Qed.

(** The mantissa [shl_align] returns, as a number and by its length. *)
Lemma shl_align_spec (m : positive) (e e' : Z) :
  e' <= e ->
  exists k : nat, Z.of_nat k = e - e' /\ fst (shl_align m e e') = Nat.iter k xO m.
Proof.
  intro Hle. unfold shl_align.
  destruct (e' - e) as [| d | d] eqn:Hd; try lia.
  - exists 0%nat. split; [simpl; lia | reflexivity].
  - exists (Pos.to_nat d). split; [rewrite positive_nat_Z; lia |].
    cbn [fst]. apply pos_iter_nat.
Qed.

Lemma valid_emin (m : positive) (e : Z) :
  bounded prec emax m e = true -> SpecFloat.emin prec emax <= e.
Proof.
  intro Hb. destruct (bounded_canonical m e Hb) as [Hc _].
  rewrite <- Hc. unfold fexp. lia.
Qed.

(** Two mantissas of the format that align to the same integer belong to the
    same exponent. *)
Lemma aligned_eq_exponent (mx my : positive) (ex ey : Z) (kx ky : nat) :
  bounded prec emax mx ex = true -> bounded prec emax my ey = true ->
  ex - Z.of_nat kx = ey - Z.of_nat ky ->
  Nat.iter kx xO mx = Nat.iter ky xO my ->
  ex = ey.
Proof.
  intros Hx Hy Hk Heq.
  destruct (bounded_canonical mx ex Hx) as [Hcx _].
  destruct (bounded_canonical my ey Hy) as [Hcy _].
  pose proof (digits2_pos_shiftl mx kx) as Hdx.
  pose proof (digits2_pos_shiftl my ky) as Hdy.
  rewrite Heq in Hdx. rewrite Hdx in Hdy.
  rewrite <- Hcx, <- Hcy. f_equal. lia.
Qed.

Lemma iter_xO_inj (k : nat) (m m' : positive) :
  Nat.iter k xO m = Nat.iter k xO m' -> m = m'.
Proof.
  induction k as [| k IH]; [easy |]. simpl. intro H. apply IH. now injection H.
Qed.

(** Distinct binary64 numbers have a nonzero difference: subtraction
    underflows gradually. *)
Lemma SFsub_not_zero (x y : spec_float) :
  valid_binary x = true -> valid_binary y = true ->
  SFeqb x y = false ->
  SFis_zero (SFsub prec emax x y) = false.
Proof.
  intros Hx Hy Hne.
  destruct x as [sx | sx | | sx mx ex], y as [sy | sy | | sy my ey];
    try reflexivity; try discriminate Hne;
    try (destruct sx, sy; (reflexivity || discriminate Hne)).
  cbn [valid_binary] in Hx, Hy. cbn [SFsub].
  pose proof (valid_emin mx ex Hx) as Hex. pose proof (valid_emin my ey Hy) as Hey.
  apply binary_normalize_not_zero; [| lia].
  destruct (shl_align_spec mx ex (Z.min ex ey)) as [kx [Hkx ->]]; [lia |].
  destruct (shl_align_spec my ey (Z.min ex ey)) as [ky [Hky ->]]; [lia |].
  intro HD.
  assert (Hs : sx = sy).
  { destruct sx, sy; cbn [cond_Zopp] in HD; lia || reflexivity. }
  subst sy.
  assert (Hm : Nat.iter kx xO mx = Nat.iter ky xO my).
  { destruct sx; cbn [cond_Zopp] in HD; lia. }
  assert (He : ex = ey) by (apply (aligned_eq_exponent mx my ex ey kx ky); auto; lia).
  subst ey. assert (ky = kx) by lia. subst ky.
  apply iter_xO_inj in Hm. subst my.
  revert Hne. unfold SFeqb, SFcompare. rewrite Z.compare_refl.
  change (Pos.compare_cont Eq mx mx) with (Pos.compare mx mx).
  rewrite Pos.compare_refl. now destruct sx.
Qed.

Lemma SFsub_eq_zero (x y : spec_float) :
  match x with S754_infinity _ => False | _ => True end ->
  SFeqb x y = true ->
  SFis_zero (SFsub prec emax x y) = true.
Proof.
  intros Hfin Heq.
  destruct x as [sx | sx | | sx mx ex], y as [sy | sy | | sy my ey];
    try reflexivity; try discriminate Heq; try contradiction;
    try (destruct sx, sy; (reflexivity || discriminate Heq)).
  revert Heq. unfold SFeqb, SFcompare.
  destruct sx, sy; try discriminate;
    (destruct (Z.compare_spec ex ey) as [-> | |]; try discriminate;
     change (Pos.compare_cont Eq mx my) with (Pos.compare mx my);
     destruct (Pos.compare_spec mx my) as [-> | |]; try discriminate; intros _;
     cbn [SFsub]; rewrite Z.sub_diag; reflexivity).
Qed.

End SpecFloatFacts.

Lemma eqb_zero_spec (x : float) : PrimFloat.eqb x 0%float = SFis_zero (Prim2SF x).
Proof.
  rewrite FloatAxioms.eqb_spec. change (Prim2SF 0) with (S754_zero false).
  destruct (Prim2SF x) as [s | s | | s m e]; try reflexivity.
  - now destruct s.
  - now destruct s.
Qed.

Lemma mul_one_r (x : float) : x * 1 = x.
Proof.
  apply Prim2SF_inj. rewrite mul_spec.
  pose proof (Prim2SF_valid x) as Hv.
  change (Prim2SF 1) with (S754_finite false 4503599627370496 (-52)).
  destruct (Prim2SF x) as [s | s | | s m e]; cbn [SF64mul SFmul];
    try reflexivity; try (now rewrite xorb_false_r).
  rewrite xorb_false_r.
  rewrite Pos.mul_comm.
  change (4503599627370496 * m)%positive with (Nat.iter 52 xO m).
  change (e + -52)%Z with (e - Z.of_nat 52)%Z.
  now apply binary_round_aux_shiftl.
Qed.

Lemma div_one_r (x : float) : x / 1 = x.
Proof.
  apply Prim2SF_inj. rewrite div_spec.
  pose proof (Prim2SF_valid x) as Hv.
  change (Prim2SF 1) with (S754_finite false 4503599627370496 (-52)).
  destruct (Prim2SF x) as [s | s | | s m e]; cbn [SF64div SFdiv];
    try reflexivity; try (now rewrite xorb_false_r).
  rewrite xorb_false_r. cbn [valid_binary] in Hv.
  destruct (div_core_one m e Hv) as [k ->].
  now apply binary_round_aux_shiftl.
Qed.

(** [x - y] is a zero only if [x == y]. *)
Lemma sub_eqb_zero_false (x y : float) :
  (x =? y) = false -> (x - y =? 0) = false.
Proof.
  rewrite eqb_zero_spec, sub_spec, FloatAxioms.eqb_spec.
  apply SFsub_not_zero; apply Prim2SF_valid.
Qed.

(** For numbers other than the infinities, [x == y] makes [x - y] a zero. *)
Lemma sub_eqb_zero_true (x y : float) :
  is_infinity x = false -> (x =? y) = true -> (x - y =? 0) = true.
Proof.
  intros Hfin. rewrite eqb_zero_spec, sub_spec, FloatAxioms.eqb_spec.
  apply SFsub_eq_zero.
  revert Hfin. unfold is_infinity. rewrite FloatAxioms.eqb_spec, abs_spec.
  change (Prim2SF infinity) with (S754_infinity false).
  destruct (Prim2SF x); easy.
Qed.


(** ** Classifying a float by the comparisons of the source *)

Ltac to_spec :=
  unfold is_nan, is_zero, is_infinity, is_finite in *;
  rewrite ?FloatAxioms.eqb_spec, ?ltb_spec, ?leb_spec, ?abs_spec, ?opp_spec,
    ?mul_spec, ?sub_spec, ?add_spec, ?div_spec in *;
  change (Prim2SF 0) with (S754_zero false) in *;
  change (Prim2SF infinity) with (S754_infinity false) in *.




Lemma mul_zero_r (x z : float) :
  is_finite x = true -> (z =? 0) = true -> (x * z =? 0) = true.
Proof.
  rewrite !eqb_zero_spec, mul_spec. unfold is_finite. intro H.
  apply negb_true_iff, orb_false_iff in H. destruct H as [H1 H2]. revert H1 H2.
  to_spec.
  destruct (Prim2SF x) as [[] | [] | | [] m e], (Prim2SF z) as [[] | [] | | [] m' e']; try easy.
  all: unfold SFeqb, SFcompare; rewrite Z.compare_refl;
    change (Pos.compare_cont Eq m m) with (Pos.compare m m);
    rewrite Pos.compare_refl; easy.
Qed.

Lemma sub_zero_r (x z : float) : (z =? 0) = true -> same_number (x - z) x.
Proof.
  rewrite eqb_zero_spec. intro Hz. unfold same_number.
  destruct (Prim2SF z) as [sz | | |] eqn:Ez; try discriminate.
  destruct (Prim2SF x) as [sx | sx | | sx m e] eqn:Ex.
  - right. rewrite FloatAxioms.eqb_spec, sub_spec, Ex, Ez. now destruct sx, sz.
  - left. apply Prim2SF_inj. now rewrite sub_spec, Ex, Ez.
  - left. apply Prim2SF_inj. now rewrite sub_spec, Ex, Ez.
  - left. apply Prim2SF_inj. now rewrite sub_spec, Ex, Ez.
Qed.

(** Adding a zero to a number that is not a zero leaves it as it is. *)
Lemma add_zero_r (x z : float) :
  (z =? 0) = true -> (x =? 0) = false -> x + z = x.
Proof.
  rewrite !eqb_zero_spec. intros Hz Hx. apply Prim2SF_inj. rewrite add_spec.
  destruct (Prim2SF z) as [sz | | |]; try discriminate.
  now destruct (Prim2SF x) as [sx | sx | | sx m e].
Qed.

(** Subtracting a zero from a number that is not a zero leaves it as it is. *)
Lemma sub_zero_r_exact (x z : float) :
  (z =? 0) = true -> (x =? 0) = false -> x - z = x.
Proof.
  rewrite !eqb_zero_spec. intros Hz Hx. apply Prim2SF_inj. rewrite sub_spec.
  destruct (Prim2SF z) as [sz | | |]; try discriminate.
  now destruct (Prim2SF x) as [sx | sx | | sx m e].
Qed.

(** Subtracting the positive zero changes nothing at all. *)
Lemma sub_pos_zero (x : float) : x - 0 = x.
Proof.
  apply Prim2SF_inj. rewrite sub_spec. change (Prim2SF 0) with (S754_zero false).
  now destruct (Prim2SF x) as [[] | sx | | sx m e].
Qed.

(** A zero divided by a number other than zero and NaN is a zero. *)
Lemma div_zero_l (z y : float) :
  (z =? 0) = true -> is_nan y = false -> (y =? 0) = false -> (z / y =? 0) = true.
Proof.
  rewrite !eqb_zero_spec, div_spec. unfold is_nan. rewrite FloatAxioms.eqb_spec.
  intros Hz Hn Hy.
  destruct (Prim2SF z) as [sz | | |]; try discriminate.
  now destruct (Prim2SF y) as [sy | sy | | sy m e].
Qed.

(** A zero times a finite number is a zero. *)
Lemma mul_zero_l (z x : float) :
  (z =? 0) = true -> is_finite x = true -> (z * x =? 0) = true.
Proof.
  rewrite !eqb_zero_spec, mul_spec. unfold is_finite. intros Hz H.
  apply negb_true_iff, orb_false_iff in H. destruct H as [H1 H2]. revert H1 H2.
  unfold is_nan, is_infinity. rewrite !FloatAxioms.eqb_spec, abs_spec.
  change (Prim2SF infinity) with (S754_infinity false).
  destruct (Prim2SF z) as [sz | | |]; try discriminate.
  now destruct (Prim2SF x) as [sx | sx | | sx m e].
Qed.


(** Adding the positive zero to a zero gives a zero. *)
Lemma add_zero_zero (d : float) : (d =? 0) = true -> (d + 0 =? 0) = true.
Proof.
  rewrite !eqb_zero_spec, add_spec. change (Prim2SF 0) with (S754_zero false).
  now destruct (Prim2SF d) as [[] | | |].
Qed.

Lemma eqb_refl_number (x : float) : is_nan x = false -> (x =? x) = true.
Proof. unfold is_nan. now destruct (x =? x). Qed.

Lemma finite_parts (x : float) :
  is_finite x = true -> is_nan x = false /\ is_infinity x = false.
Proof.
  unfold is_finite. intro H. now apply negb_true_iff, orb_false_iff in H.
Qed.

(** ** The operators *)

Lemma float_div_nonzero (x y : float) :
  (y =? 0) = false -> float_div x y = Ok (x / y).
Proof. unfold float_div. now intros ->. Qed.

Lemma float_div_zero (x y : float) :
  (y =? 0) = true -> float_div x y = Raise ZeroDivisionError.
Proof. unfold float_div. now intros ->. Qed.

Section PowFacts.

Variable libm_pow : float -> float -> float * errno.
Variable complex_pow : float -> float -> result pyval.

#[local] Abbreviation pow := (float_pow libm_pow complex_pow).

(** Anything to the power zero is 1.0. *)
Lemma float_pow_exponent_zero (v w : float) :
  (w =? 0) = true -> pow v w = Ok (PyFloat 1).
Proof. unfold float_pow. now intros ->. Qed.



End PowFacts.

(** * The claims *)

(** In the statements below the specification's [DomainError] is the
    exception Python raises for the operation, [ZeroDivisionError] for a
    division by zero; [present_value] is [value], [perpetuity_value] is
    [value_2], [enterprise_value_fade] is [EV_fade] and
    [enterprise_value_fade_from_roic] is [EV_fade2]. *)

Section Claims.

Variable libm_pow : float -> float -> float * errno.
Variable complex_pow : float -> float -> result pyval.


(** C9.  Zero discounting is the identity: for every [fcff] and every
    [r > -1], [value(fcff, r, 0)] returns [fcff] itself. *)
Theorem value_zero_periods (fcff r : float) :
  (-1 <? r) = true -> value libm_pow complex_pow fcff r 0 = Ok (PyFloat fcff).
Proof.
  intros _. unfold value. rewrite float_pow_exponent_zero by reflexivity.
  cbn [bind py_truediv]. rewrite float_div_nonzero by reflexivity.
  cbn [bind]. now rewrite div_one_r.
Qed.

(** C6, amended.  [economic_profit] raises ZeroDivisionError when
    [ic_0 == 0]; for [ic_0 != 0] it returns
    [((nopat_1 / ic_0) - r) * p2 * p3 * ic_0] whenever the two powers
    [(1 - f) ** (t - 1)] and [(1 + g) ** (t - 1)] evaluate to floats [p2] and
    [p3]; at [t = 1] both powers are 1.0 and the result is
    [((nopat_1 / ic_0) - r) * ic_0], which for
    [(100, 800, 0.09, 0.2, 0.03, 1)] is the binary64 number
    28.000000000000004. *)
Theorem economic_profit_contract (nopat_1 ic_0 r f g t : float) :
  ((ic_0 =? 0) = true ->
   economic_profit libm_pow complex_pow nopat_1 ic_0 r f g t
   = Raise ZeroDivisionError)
  /\ ((ic_0 =? 0) = false ->
      forall p2 p3 : float,
        float_pow libm_pow complex_pow (1 - f) (t - 1) = Ok (PyFloat p2) ->
        float_pow libm_pow complex_pow (1 + g) (t - 1) = Ok (PyFloat p3) ->
        economic_profit libm_pow complex_pow nopat_1 ic_0 r f g t
        = Ok (PyFloat ((nopat_1 / ic_0 - r) * p2 * p3 * ic_0)))
  /\ ((ic_0 =? 0) = false ->
      float_pow libm_pow complex_pow (1 - f) (1 - 1) = Ok (PyFloat 1)
      /\ float_pow libm_pow complex_pow (1 + g) (1 - 1) = Ok (PyFloat 1)
      /\ economic_profit libm_pow complex_pow nopat_1 ic_0 r f g 1
         = Ok (PyFloat ((nopat_1 / ic_0 - r) * ic_0)))
  /\ economic_profit libm_pow complex_pow 100 800 0.09 0.2 0.03 1
     = Ok (PyFloat 28.000000000000004).
Proof.
  unfold economic_profit. split; [| split; [| split]].
  - intro H. now rewrite float_div_zero.
  - intros H p2 p3 -> ->. now rewrite float_div_nonzero.
  - intro H. rewrite float_div_nonzero by assumption. cbn [bind].
    rewrite !float_pow_exponent_zero by reflexivity.
    cbn [bind py_mul]. now rewrite !mul_one_r.
  - reflexivity.
Qed.

End Claims.

(** C2.  [return_on_invested_capital(nopat, ic)] returns [nopat / ic] for
    every [ic != 0] and raises exactly when [ic == 0], with
    ZeroDivisionError; in particular at [(50, 0)]. *)
Theorem return_on_invested_capital_contract (nopat ic : float) :
  ((ic =? 0) = false -> return_on_invested_capital nopat ic = Ok (nopat / ic))
  /\ (raises (return_on_invested_capital nopat ic) = true <-> (ic =? 0) = true)
  /\ ((ic =? 0) = true ->
      return_on_invested_capital nopat ic = Raise ZeroDivisionError)
  /\ return_on_invested_capital 50 0 = Raise ZeroDivisionError.
Proof.
  unfold return_on_invested_capital, float_div.
  destruct (ic =? 0); repeat split; intros; easy.
Qed.

(** C3.  [future_free_cash_flow] is dual-mode: with [g] supplied it returns
    [nopat - ic * g], with [g] unset it returns [nopat - ic]; both
    [(120, 500, 0.03)] and [(120, 15)] give 105. *)
Theorem future_free_cash_flow_dual_mode (nopat ic g : float) :
  future_free_cash_flow nopat ic (Some g) = nopat - ic * g
  /\ future_free_cash_flow nopat ic None = nopat - ic
  /\ future_free_cash_flow 120 500 (Some 0.03) = 105
  /\ future_free_cash_flow 120 15 None = 105.
Proof. repeat split. Qed.

(** C4, amended.  Supplying [g = 0] is distinguished from leaving [g] unset:
    for every [nopat] and every finite [ic],
    [future_free_cash_flow(nopat, ic, g=0)] takes the [ic * g] branch and
    returns [nopat - ic * 0], the number [nopat] (the change [ic * 0] is a
    zero), where the unset call returns [nopat - ic]: at [(120, 15)] the
    first gives 120 and the second 105. *)
Theorem future_free_cash_flow_zero_growth (nopat ic g : float) :
  is_finite ic = true -> (g =? 0) = true ->
  future_free_cash_flow nopat ic (Some g) = nopat - ic * g
  /\ (ic * g =? 0) = true
  /\ same_number (future_free_cash_flow nopat ic (Some g)) nopat
  /\ future_free_cash_flow nopat ic None = nopat - ic
  /\ future_free_cash_flow 120 15 (Some 0) = 120
  /\ future_free_cash_flow 120 15 None = 105.
Proof.
  intros Hic Hg. pose proof (mul_zero_r ic g Hic Hg) as Hz.
  repeat split; try assumption.
  unfold future_free_cash_flow. now apply sub_zero_r.
Qed.

(** C5, amended.  [value_2(nopat, g, roic, r)] returns
    [(nopat * (1 - g / roic)) / (r - g)] for every input with [roic != 0] and
    [r != g] (1500 at [(100, 0.03, 0.12, 0.08)]), and raises ZeroDivisionError
    when [roic == 0], or when [r == g] and [r] is not an infinity. *)
Theorem value_2_contract (nopat g roic r : float) :
  ((roic =? 0) = false -> (r =? g) = false ->
   value_2 nopat g roic r = Ok ((nopat * (1 - g / roic)) / (r - g)))
  /\ ((roic =? 0) = true -> value_2 nopat g roic r = Raise ZeroDivisionError)
  /\ ((r =? g) = true -> is_infinity r = false ->
      value_2 nopat g roic r = Raise ZeroDivisionError)
  /\ value_2 100 0.03 0.12 0.08 = Ok 1500.
Proof.
  unfold value_2. split; [| split; [| split]].
  - intros Hroic Hrg. rewrite float_div_nonzero by assumption. cbn [bind].
    apply float_div_nonzero. now apply sub_eqb_zero_false.
  - intro Hroic. now rewrite float_div_zero.
  - intros Hrg Hr. unfold float_div at 1. destruct (roic =? 0); [reflexivity |].
    cbn [bind]. apply float_div_zero. now apply sub_eqb_zero_true.
  - reflexivity.
Qed.

(** C7.  [EV_fade(nopat_1, ic_0, r, f, g)] returns
    [ic_0 + ep_1 / (r - (1 + g) * (1 - f) + 1)] with
    [ep_1 = ((nopat_1 / ic_0) - r) * ic_0] for every input with [ic_0 != 0]
    and a nonzero denominator, [800 + 28 / 0.266] at
    [(100, 800, 0.09, 0.2, 0.03)], and raises ZeroDivisionError when
    [ic_0 == 0] or the denominator is zero. *)
Theorem EV_fade_contract (nopat_1 ic_0 r f g : float) :
  let ep_1 := (nopat_1 / ic_0 - r) * ic_0 in
  let denominator := r - (1 + g) * (1 - f) + 1 in
  ((ic_0 =? 0) = false -> (denominator =? 0) = false ->
   EV_fade nopat_1 ic_0 r f g = Ok (ic_0 + ep_1 / denominator))
  /\ ((ic_0 =? 0) = true \/ (denominator =? 0) = true ->
      EV_fade nopat_1 ic_0 r f g = Raise ZeroDivisionError)
  /\ EV_fade 100 800 0.09 0.2 0.03 = Ok (800 + 28 / 0.266).
Proof.
  cbv zeta. unfold EV_fade. split; [| split].
  - intros Hic Hd. rewrite float_div_nonzero by assumption. cbn [bind].
    now rewrite float_div_nonzero.
  - intros [Hic | Hd].
    + now rewrite float_div_zero.
    + unfold float_div at 1. destruct (ic_0 =? 0); [reflexivity |].
      cbn [bind]. now rewrite float_div_zero.
  - reflexivity.
Qed.

(** C8.  [EV_fade2(nopat_1, roic_1, r, f, g)] returns
    [nopat_1 * (1 - (g - f) / roic_1) / (r - g + f)] for every input with
    [roic_1 != 0] and [r - g + f != 0], and raises ZeroDivisionError when
    [roic_1 == 0] or [r - g + f == 0]. *)
Theorem EV_fade2_contract (nopat_1 roic_1 r f g : float) :
  ((roic_1 =? 0) = false -> (r - g + f =? 0) = false ->
   EV_fade2 nopat_1 roic_1 r f g
   = Ok (nopat_1 * (1 - (g - f) / roic_1) / (r - g + f)))
  /\ ((roic_1 =? 0) = true \/ (r - g + f =? 0) = true ->
      EV_fade2 nopat_1 roic_1 r f g = Raise ZeroDivisionError).
Proof.
  unfold EV_fade2. split.
  - intros Hroic Hd. rewrite float_div_nonzero by assumption. cbn [bind].
    now rewrite float_div_nonzero.
  - intros [Hroic | Hd].
    + now rewrite float_div_zero.
    + unfold float_div at 1. destruct (roic_1 =? 0); [reflexivity |].
      cbn [bind]. now rewrite float_div_zero.
Qed.

(** * Calls and the module's state *)

Section InterpreterFacts.

Variable libm_pow : float -> float -> float * errno.
Variable complex_pow : float -> float -> result pyval.
Variable complex_operand_pow : pyval -> pyval -> result pyval.

(** An expression that reads local names only evaluates the same whatever
    the module's globals hold. *)
Lemma eval_expr_globals (globals1 globals2 frame : namespace)
    (locals : list string) (e : expr) :
  reads_locals locals e = true ->
  eval_expr libm_pow complex_pow complex_operand_pow globals1 frame locals e
  = eval_expr libm_pow complex_pow complex_operand_pow globals2 frame locals e.
Proof.
  induction e as [x | id | op l IHl r IHr]; cbn [reads_locals eval_expr].
  - reflexivity.
  - now intros ->.
  - intro H. apply andb_prop in H. destruct H as [Hl Hr].
    now rewrite IHl, IHr.
Qed.

Lemma exec_stmt_globals (globals1 globals2 : namespace) (locals : list string)
    (s : stmt) :
  body_reads_locals locals s = true ->
  forall frame : namespace,
    exec_stmt libm_pow complex_pow complex_operand_pow globals1 frame locals s
    = exec_stmt libm_pow complex_pow complex_operand_pow globals2 frame locals s.
Proof.
  induction s as [target e | e body IH | e | s1 IH1 s2 IH2];
    cbn [body_reads_locals exec_stmt]; intros H frame.
  - now rewrite (eval_expr_globals globals1 globals2).
  - apply andb_prop in H. destruct H as [He Hb].
    rewrite (eval_expr_globals globals1 globals2) by assumption.
    now rewrite IH.
  - now rewrite (eval_expr_globals globals1 globals2).
  - apply andb_prop in H. destruct H as [H1 H2].
    rewrite IH1 by assumption.
    destruct (exec_stmt _ _ _ globals2 frame locals s1); auto.
Qed.

(** A function whose body reads local names only returns the same whatever
    the module's globals hold. *)
Lemma call_function_globals (globals1 globals2 : namespace) (f : funcdef)
    (args : list pyobj) :
  body_reads_locals (local_names f) (fn_body f) = true ->
  call_function libm_pow complex_pow complex_operand_pow globals1 f args
  = call_function libm_pow complex_pow complex_operand_pow globals2 f args.
Proof.
  intro H. unfold call_function.
  destruct (bind_args (fn_params f) args) as [frame |]; [| reflexivity].
  now rewrite (exec_stmt_globals globals1 globals2).
Qed.

(** The bodies evaluated by the interpreter are the seven functions. *)
Lemma call_function_exec (globals : namespace) (c : call) :
  call_function libm_pow complex_pow complex_operand_pow globals
    (def_of c) (args_of c)
  = of_result (exec libm_pow complex_pow c).
Proof.
  destruct c as [fcff r t | nopat ic [g |] | nopat ic | nopat g roic r
                | nopat_1 ic_0 r f g t | nopat_1 ic_0 r f g
                | nopat_1 roic_1 r f g];
    cbv [exec value future_free_cash_flow return_on_invested_capital value_2
         economic_profit EV_fade EV_fade2 float_result];
    cbn;
    repeat match goal with
      | |- context [float_div ?a ?b] =>
          unfold float_div; destruct (b =? 0); cbn
      | |- context [float_pow ?l ?c ?a ?b] =>
          destruct (float_pow l c a b) as [[? | ? ?] | ?]; cbn
      | |- context [complex_div ?a ?b] =>
          destruct (complex_div a b) as [? | ?]; cbn
      end;
    reflexivity.
Qed.

(** C10.  The functions are deterministic: a call of any of the seven
    functions with given arguments has the same outcome in every state of
    the module's globals, since the bodies read nothing but their parameters
    and the names they assign: two calls with identical arguments, made at
    any two moments, give identical results. *)
Theorem calls_independent_of_globals (globals1 globals2 : namespace)
    (f : funcdef) (args : list pyobj) :
  In f module_functions ->
  call_function libm_pow complex_pow complex_operand_pow globals1 f args
  = call_function libm_pow complex_pow complex_operand_pow globals2 f args.
Proof.
  intro Hf. apply call_function_globals.
  repeat (destruct Hf as [<- | Hf]; [reflexivity |]). destruct Hf.
Qed.

End InterpreterFacts.

(** A body that reads a global is not of that kind: its outcome follows the
    module's state. *)
Lemma global_read_depends_on_globals :
  call_function sample_libm_pow sample_complex_pow sample_complex_operand_pow
    [("rate", num 2)]%string def_reads_global [num 10] = Done (num 5)
  /\ call_function sample_libm_pow sample_complex_pow sample_complex_operand_pow
       [("rate", num 4)]%string def_reads_global [num 10] = Done (num 2.5)
  /\ call_function sample_libm_pow sample_complex_pow sample_complex_operand_pow
       [] def_reads_global [num 10] = Failed (NameError "rate").
Proof. repeat split. Qed.

(** * Examples and counterexamples *)



(** C9 at [value(7, 0.05, 0)]. *)
Lemma value_zero_periods_example :
  (-1 <? 0.05) = true
  /\ value sample_libm_pow sample_complex_pow 7 0.05 0 = Ok (PyFloat 7).
Proof.
  split; [reflexivity |].
  apply (value_zero_periods sample_libm_pow sample_complex_pow 7 0.05).
  reflexivity.
Defined.

(** C2 at [(50, 0)] and [(50, 400)]. *)
Lemma return_on_invested_capital_examples :
  return_on_invested_capital 50 0 = Raise ZeroDivisionError
  /\ return_on_invested_capital 50 400 = Ok 0.125.
Proof.
  split.
  - apply (proj1 (proj2 (proj2 (return_on_invested_capital_contract 50 0)))).
    reflexivity.
  - apply (proj1 (return_on_invested_capital_contract 50 400)). reflexivity.
Defined.

(** C4 at [(120, 15)] with [g = 0]. *)
Lemma future_free_cash_flow_zero_growth_example :
  is_finite 15 = true /\ (0 =? 0) = true
  /\ same_number (future_free_cash_flow 120 15 (Some 0)) 120.
Proof.
  split; [reflexivity | split; [reflexivity |]].
  apply (future_free_cash_flow_zero_growth 120 15 0); reflexivity.
Defined.

(** C4, as stated, fails at [future_free_cash_flow(1, inf, 0)]: the change
    [inf * 0] is NaN and so is the result, not [nopat = 1]. *)
Lemma future_free_cash_flow_infinite_capital :
  future_free_cash_flow 1 infinity (Some 0) = nan /\ ~ same_number nan 1.
Proof.
  split; [reflexivity |].
  intros [H | H]; [| discriminate H].
  assert (Hn : is_nan nan = is_nan 1) by now rewrite H.
  discriminate Hn.
Qed.

(** C5 at the specification's example, at [roic = 0] and at [r = g]. *)
Lemma value_2_examples :
  value_2 100 0.03 0.12 0.08 = Ok 1500
  /\ value_2 100 0.03 0 0.08 = Raise ZeroDivisionError
  /\ value_2 100 0.03 0.12 0.03 = Raise ZeroDivisionError.
Proof.
  split; [| split].
  - exact (proj1 (value_2_contract 100 0.03 0.12 0.08) eq_refl eq_refl).
  - apply (proj1 (proj2 (value_2_contract 100 0.03 0 0.08))). reflexivity.
  - apply (proj1 (proj2 (proj2 (value_2_contract 100 0.03 0.12 0.03))));
      reflexivity.
Defined.

(** C5, as stated, fails at [value_2(100, inf, 0.12, inf)]: [r == g] holds,
    but [r - g] is NaN, not zero, and the call returns NaN. *)
Lemma value_2_equal_infinite_rates :
  (infinity =? infinity) = true
  /\ value_2 100 infinity 0.12 infinity = Ok nan.
Proof. split; reflexivity. Qed.

(** C6 at [ic_0 = 0] and at the specification's example. *)
Lemma economic_profit_examples :
  economic_profit sample_libm_pow sample_complex_pow 100 0 0.09 0.2 0.03 1
  = Raise ZeroDivisionError
  /\ economic_profit sample_libm_pow sample_complex_pow 100 800 0.09 0.2 0.03 1
     = Ok (PyFloat ((100 / 800 - 0.09) * 1 * 1 * 800))
  /\ economic_profit sample_libm_pow sample_complex_pow 100 800 0.09 0.2 0.03 1
     = Ok (PyFloat ((100 / 800 - 0.09) * 800)).
Proof.
  split; [| split].
  - apply (proj1 (economic_profit_contract sample_libm_pow sample_complex_pow
                    100 0 0.09 0.2 0.03 1)).
    reflexivity.
  - apply (proj1 (proj2 (economic_profit_contract sample_libm_pow
                           sample_complex_pow 100 800 0.09 0.2 0.03 1)));
      reflexivity.
  - apply (proj1 (proj2 (proj2 (economic_profit_contract sample_libm_pow
                                  sample_complex_pow 100 800 0.09 0.2 0.03 1)))).
    reflexivity.
Defined.

(** C6, as stated, fails twice.  At
    [economic_profit(100, 800, 0.09, 1, 0.03, 0)], with [ic_0 != 0], the power
    [0.0 ** -1.0] raises ZeroDivisionError, whatever the library's [pow]; and
    the result at [(100, 800, 0.09, 0.2, 0.03, 1)] is 28.000000000000004,
    which is not [== 28]. *)
Lemma economic_profit_raises_at_full_fade :
  (800 =? 0) = false
  /\ (fun libm_pow complex_pow =>
        economic_profit libm_pow complex_pow 100 800 0.09 1 0.03 0)
     = (fun _ _ => Raise ZeroDivisionError)
  /\ (fun libm_pow complex_pow =>
        economic_profit libm_pow complex_pow 100 800 0.09 0.2 0.03 1)
     = (fun _ _ => Ok (PyFloat 28.000000000000004))
  /\ (28.000000000000004 =? 28) = false.
Proof. repeat split. Qed.

(** C7 at the specification's example, at [ic_0 = 0] and at a zero
    denominator ([r = -1], [g = -1]). *)
Lemma EV_fade_examples :
  EV_fade 100 800 0.09 0.2 0.03 = Ok 905.26315789473688
  /\ EV_fade 100 0 0.09 0.2 0.03 = Raise ZeroDivisionError
  /\ EV_fade 100 800 (-1) 0.2 (-1) = Raise ZeroDivisionError.
Proof.
  split; [| split].
  - exact (proj1 (EV_fade_contract 100 800 0.09 0.2 0.03) eq_refl eq_refl).
  - apply (proj1 (proj2 (EV_fade_contract 100 0 0.09 0.2 0.03))).
    left. reflexivity.
  - apply (proj1 (proj2 (EV_fade_contract 100 800 (-1) 0.2 (-1)))).
    right. reflexivity.
Defined.

(** C8 at [(100, 0.125, 0.09, 0.2, 0.03)], at [roic_1 = 0] and at
    [r - g + f = 0]. *)
Lemma EV_fade2_examples :
  EV_fade2 100 0.125 0.09 0.2 0.03 = Ok 907.69230769230774
  /\ EV_fade2 100 0 0.09 0.2 0.03 = Raise ZeroDivisionError
  /\ EV_fade2 100 0.125 0.25 0.25 0.5 = Raise ZeroDivisionError.
Proof.
  split; [| split].
  - exact (proj1 (EV_fade2_contract 100 0.125 0.09 0.2 0.03) eq_refl eq_refl).
  - apply (proj2 (EV_fade2_contract 100 0 0.09 0.2 0.03)). left. reflexivity.
  - apply (proj2 (EV_fade2_contract 100 0.125 0.25 0.25 0.5)).
    right. reflexivity.
Defined.


(** C10 for [value(7, 0.05, 0)], called once in an empty module and once in
    a module whose globals rebind [r], [t] and [fcff]. *)
Lemma calls_independent_of_globals_example :
  call_function sample_libm_pow sample_complex_pow sample_complex_operand_pow
    [] def_value [num 7; num 0.05; num 0]
  = call_function sample_libm_pow sample_complex_pow sample_complex_operand_pow
      [("r", num 99); ("t", ONone); ("fcff", num 1)]%string
      def_value [num 7; num 0.05; num 0].
Proof.
  apply calls_independent_of_globals. left. reflexivity.
Defined.

(** * Further properties *)

(** The discounting of 100 at 10% over one period is [100 / 1.10], on a
    platform whose [pow(1.1, 1.0)] is 1.1. *)
Theorem value_one_period (libm_pow : float -> float -> float * errno)
    (complex_pow : float -> float -> result pyval) :
  libm_pow 1.1 1 = (1.1, ENONE) ->
  value libm_pow complex_pow 100 0.10 1 = Ok (PyFloat (100 / 1.10)).
Proof.
  intro H. unfold value, float_pow. cbn. rewrite H. reflexivity.
Qed.

Lemma value_one_period_example :
  value sample_libm_pow sample_complex_pow 100 0.10 1
  = Ok (PyFloat 90.909090909090907).
Proof.
  exact (value_one_period sample_libm_pow sample_complex_pow eq_refl).
Defined.

(** The two fade valuations do not coincide under [roic_1 = nopat_1 / ic_0]:
    at [(100, 800, 0.09, 0.2, 0.03)] [EV_fade] gives 905.26315789473688 and
    [EV_fade2] gives 907.69230769230774. *)
Theorem EV_fade_EV_fade2_differ :
  EV_fade 100 800 0.09 0.2 0.03 = Ok 905.26315789473688
  /\ EV_fade2 100 (100 / 800) 0.09 0.2 0.03 = Ok 907.69230769230774
  /\ (905.26315789473688 =? 907.69230769230774) = false.
Proof. repeat split. Qed.

Section MoreFacts.

Variable libm_pow : float -> float -> float * errno.
Variable complex_pow : float -> float -> result pyval.

(** 1.0 to any power, NaN and the infinities included, is 1.0. *)
Lemma float_pow_base_one (w : float) :
  float_pow libm_pow complex_pow 1 w = Ok (PyFloat 1).
Proof.
  unfold float_pow.
  change (is_nan 1) with false. change (is_infinity 1) with false.
  change (abs 1 =? 1) with true. change (1 =? 1) with true.
  change (1 =? 0) with false. change (1 <? 0) with false.
  cbn [andb].
  destruct (w =? 0); [reflexivity |].
  destruct (is_nan w); [reflexivity |].
  destruct (is_infinity w); reflexivity.
Qed.

(** Outside the case of a negative base with a fractional exponent, a power
    is a float or an exception. *)
Lemma float_pow_real (v w : float) :
  ((v <? 0) && negb (w =? floor w)) = false ->
  is_complex (float_pow libm_pow complex_pow v w) = false.
Proof.
  intro H. unfold float_pow. rewrite H.
  destruct (w =? 0); [reflexivity |].
  destruct (is_nan v); [reflexivity |].
  destruct (is_nan w); [reflexivity |].
  destruct (is_infinity w).
  { destruct (abs v =? 1); [reflexivity |].
    now destruct (Bool.eqb (0 <? w) (1 <? abs v)). }
  destruct (is_infinity v).
  { now destruct (0 <? w). }
  destruct (v =? 0).
  { now destruct (w <? 0). }
  destruct ((if v <? 0 then - v else v) =? 1); [reflexivity |].
  destruct (libm_pow (if v <? 0 then - v else v) w) as [ix e].
  now destruct (adjust_erange1 ix e).
Qed.

(** At a zero cost of capital nothing is discounted: [value(fcff, 0, t)]
    returns [fcff] itself for every [fcff] and every [t], NaN and the
    infinities included, since [1.0 ** t] is 1.0 without a call of the
    library. *)
Theorem value_zero_rate (fcff r t : float) :
  (r =? 0) = true -> value libm_pow complex_pow fcff r t = Ok (PyFloat fcff).
Proof.
  intro Hr. unfold value. rewrite (add_zero_r 1 r Hr) by reflexivity.
  rewrite float_pow_base_one. cbn [bind py_truediv]. unfold float_div.
  change (1 =? 0) with false. cbn [bind]. now rewrite div_one_r.
Qed.

(** [value] returns a float or raises, never a complex number, as soon as
    [1 + r] is not negative or [t] is integral. *)
Theorem value_never_complex (fcff r t : float) :
  (1 + r <? 0) = false \/ (t =? floor t) = true ->
  is_complex (value libm_pow complex_pow fcff r t) = false.
Proof.
  intro H.
  assert (Hg : ((1 + r <? 0) && negb (t =? floor t)) = false).
  { destruct H as [-> | ->]; [reflexivity | apply andb_false_r]. }
  unfold value. pose proof (float_pow_real (1 + r) t Hg) as Hp.
  destruct (float_pow libm_pow complex_pow (1 + r) t) as [[p | re im] | e];
    try discriminate; [| reflexivity].
  cbn [bind py_truediv]. unfold float_div. now destruct (p =? 0).
Qed.

(** [economic_profit] returns a float or raises, never a complex number,
    as soon as [t - 1] is integral or neither [1 - f] nor [1 + g] is
    negative. *)
Theorem economic_profit_never_complex (nopat_1 ic_0 r f g t : float) :
  (1 - f <? 0) = false \/ (t - 1 =? floor (t - 1)) = true ->
  (1 + g <? 0) = false \/ (t - 1 =? floor (t - 1)) = true ->
  is_complex (economic_profit libm_pow complex_pow nopat_1 ic_0 r f g t) = false.
Proof.
  intros Hf Hg.
  assert (H2 : ((1 - f <? 0) && negb (t - 1 =? floor (t - 1))) = false).
  { destruct Hf as [-> | ->]; [reflexivity | apply andb_false_r]. }
  assert (H3 : ((1 + g <? 0) && negb (t - 1 =? floor (t - 1))) = false).
  { destruct Hg as [-> | ->]; [reflexivity | apply andb_false_r]. }
  apply float_pow_real in H2. apply float_pow_real in H3.
  unfold economic_profit, float_div. destruct (ic_0 =? 0); [reflexivity |].
  cbn [bind].
  destruct (float_pow libm_pow complex_pow (1 - f) (t - 1)) as [[p2 | ? ?] | e];
    try discriminate; [| reflexivity].
  cbn [bind].
  destruct (float_pow libm_pow complex_pow (1 + g) (t - 1)) as [[p3 | ? ?] | e];
    try discriminate; reflexivity.
Qed.

(** The [ep_1] of [EV_fade] is [economic_profit] at the default period
    [t = 1]: either both raise ZeroDivisionError ([ic_0 == 0]), or
    [economic_profit(nopat_1, ic_0, r, f, g)] returns a float [ep_1] and
    [EV_fade] is [ic_0 + ep_1 / (r - (1 + g) * (1 - f) + 1)]. *)
Theorem EV_fade_from_economic_profit (nopat_1 ic_0 r f g : float) :
  (economic_profit libm_pow complex_pow nopat_1 ic_0 r f g 1
     = Raise ZeroDivisionError
   /\ EV_fade nopat_1 ic_0 r f g = Raise ZeroDivisionError)
  \/ (exists ep_1 : float,
        economic_profit libm_pow complex_pow nopat_1 ic_0 r f g 1
          = Ok (PyFloat ep_1)
        /\ EV_fade nopat_1 ic_0 r f g
           = (d <- float_div ep_1 (r - (1 + g) * (1 - f) + 1) ;; Ok (ic_0 + d))).
Proof.
  unfold economic_profit, EV_fade.
  destruct (ic_0 =? 0) eqn:Hic.
  - left. rewrite !(float_div_zero nopat_1 ic_0) by assumption. now split.
  - right. rewrite !(float_div_nonzero nopat_1 ic_0) by assumption.
    cbn [bind]. rewrite !float_pow_exponent_zero by reflexivity.
    cbn [bind py_mul]. rewrite !mul_one_r. eexists. split; reflexivity.
Qed.

End MoreFacts.

(** Without growth the perpetuity is [nopat / r]: for [g = 0] and a [roic]
    that is a number other than zero, [value_2(nopat, 0, roic, r)] is
    [return_on_invested_capital(nopat, r)], result or ZeroDivisionError. *)
Theorem value_2_zero_growth (nopat roic r : float) :
  (roic =? 0) = false -> is_nan roic = false ->
  value_2 nopat 0 roic r = return_on_invested_capital nopat r.
Proof.
  intros Hz Hn. unfold value_2, return_on_invested_capital.
  rewrite float_div_nonzero by assumption. cbn [bind].
  rewrite (sub_zero_r_exact 1 (0 / roic)); [| now apply div_zero_l | reflexivity].
  now rewrite mul_one_r, sub_pos_zero.
Qed.

(** Without fade the valuation from ROIC is the growing perpetuity:
    [EV_fade2(nopat_1, roic_1, r, 0, g)] and [value_2(nopat_1, g, roic_1, r)]
    have the same outcome for all inputs. *)
Theorem EV_fade2_without_fade (nopat_1 roic_1 r g : float) :
  EV_fade2 nopat_1 roic_1 r 0 g = value_2 nopat_1 g roic_1 r.
Proof.
  unfold EV_fade2, value_2. rewrite sub_pos_zero.
  destruct (float_div g roic_1) as [q | e]; [| reflexivity]. cbn [bind].
  unfold float_div. destruct (r - g =? 0) eqn:Hd.
  - rewrite (add_zero_zero _ Hd). reflexivity.
  - rewrite (add_zero_r (r - g) 0 eq_refl Hd), Hd. reflexivity.
Qed.

(** Without excess return the enterprise is worth its invested capital:
    when [r] is the ROIC [nopat_1 / ic_0], both finite, and the denominator
    is a number other than zero, [EV_fade] returns [ic_0]. *)
Theorem EV_fade_no_spread (nopat_1 ic_0 f g : float) :
  let r := nopat_1 / ic_0 in
  let denominator := r - (1 + g) * (1 - f) + 1 in
  (ic_0 =? 0) = false -> is_finite ic_0 = true -> is_finite r = true ->
  (denominator =? 0) = false -> is_nan denominator = false ->
  EV_fade nopat_1 ic_0 r f g = Ok ic_0.
Proof.
  cbv zeta. intros Hic Hfin Hr Hd Hdn.
  destruct (finite_parts _ Hr) as [Hrn Hri].
  unfold EV_fade. rewrite float_div_nonzero by assumption. cbn [bind].
  assert (Hz : (nopat_1 / ic_0 - nopat_1 / ic_0 =? 0) = true).
  { apply sub_eqb_zero_true; [assumption | now apply eqb_refl_number]. }
  assert (He : ((nopat_1 / ic_0 - nopat_1 / ic_0) * ic_0 =? 0) = true)
    by now apply mul_zero_l.
  rewrite float_div_nonzero by assumption. cbn [bind].
  rewrite add_zero_r; [reflexivity | | assumption].
  now apply div_zero_l.
Qed.

Section CallFacts.

Variable libm_pow : float -> float -> float * errno.
Variable complex_pow : float -> float -> result pyval.
Variable complex_operand_pow : pyval -> pyval -> result pyval.


End CallFacts.

(** [value(250, 0, 7.5)]. *)
Lemma value_zero_rate_example :
  value sample_libm_pow sample_complex_pow 250 0 7.5 = Ok (PyFloat 250).
Proof.
  apply (value_zero_rate sample_libm_pow sample_complex_pow 250 0 7.5).
  reflexivity.
Defined.

(** [value(100, 0.10, 1)] and [value(5, -3, 2)]. *)
Lemma value_never_complex_example :
  is_complex (value sample_libm_pow sample_complex_pow 100 0.10 1) = false
  /\ is_complex (value sample_libm_pow sample_complex_pow 5 (-3) 2) = false.
Proof.
  split.
  - apply (value_never_complex sample_libm_pow sample_complex_pow 100 0.10 1).
    left. reflexivity.
  - apply (value_never_complex sample_libm_pow sample_complex_pow 5 (-3) 2).
    right. reflexivity.
Defined.

(** [economic_profit(100, 800, 0.09, 0.2, 0.03, 1)]. *)
Lemma economic_profit_never_complex_example :
  is_complex (economic_profit sample_libm_pow sample_complex_pow
                100 800 0.09 0.2 0.03 1) = false.
Proof.
  apply (economic_profit_never_complex sample_libm_pow sample_complex_pow
           100 800 0.09 0.2 0.03 1); left; reflexivity.
Defined.

(** [value_2(100, 0, 0.12, 0.08)] is [100 / 0.08]. *)
Lemma value_2_zero_growth_example :
  value_2 100 0 0.12 0.08 = Ok 1250.
Proof.
  exact (value_2_zero_growth 100 0.12 0.08 eq_refl eq_refl).
Defined.

(** [EV_fade(100, 800, 0.125, 0.2, 0.03)], where 0.125 is [100 / 800]. *)
Lemma EV_fade_no_spread_example :
  EV_fade 100 800 (100 / 800) 0.2 0.03 = Ok 800.
Proof.
  apply (EV_fade_no_spread 100 800 0.2 0.03); reflexivity.
Defined.
